(** * KhipuVault contract state checker

    A shallow embedding of [scripts/check-contract-state.py]: the script
    connects to the Mezo testnet RPC endpoint, reads the pause flags of
    IndividualPool and CooperativePool and the state of YieldAggregator,
    and prints a readiness summary.

    Python's effects are made explicit.  A run is a computation in a small
    trace-and-exception monad: every [print] and every call the script
    makes on the web3 client is an event of the trace, and a computation
    ends with a value or with a pending Python exception ([Exception] or
    [SystemExit]).  What the network answers is a parameter of the run, the
    [World].

    The trace stops at the interface of the web3 library: it has one event
    per call the script makes on the client, whatever number of HTTP
    requests the library sends for it.  Building a contract object,
    [w3.eth.contract(address=..., abi=...)], is no such call; only
    [.call()] is, and it is the step that may raise inside the two checks.
    The report is that of a standard output that accepts its text: [print]
    does not fail here. *)

From Stdlib Require Import ZArith List String Bool Lia.
From Stdlib Require Import DecimalString.
Import ListNotations.
Open Scope string_scope.
Open Scope Z_scope.
Open Scope list_scope.

(** ** Configuration (lines 17-25) *)

Definition MEZO_TESTNET_RPC : string := "https://testnet-rpc.mezo.org".
Definition CHAIN_ID : Z := 31611.

Definition INDIVIDUAL_POOL : string := "0xC2c7c8E1325Ec049302F225c8A0151E561F446Ed".
Definition COOPERATIVE_POOL : string := "0xDDe8c75271E454075BD2f348213A66B142BB8906".
Definition YIELD_AGGREGATOR : string := "0xfB3265402f388d72a9b63353b4a7BeeC4fD9De4c".
Definition MEZO_INTEGRATION : string := "0x9AC6249d2f2E3cbAAF34E114EdF1Cb7519AF04C2".

(** ** Python values used by the script *)

(** [str(n)] for a Python int. *)
Definition str_int (n : Z) : string := NilZero.string_of_int (Z.to_int n).

(** [s * n] for a string [s] and a literal count [n]. *)
Fixpoint str_mul (s : string) (n : nat) : string :=
  match n with
  | O => ""
  | S k => (s ++ str_mul s k)%string
  end.

(** [sub in s] on strings. *)
Fixpoint str_contains (sub s : string) : bool :=
  prefix sub s ||
  match s with
  | EmptyString => false
  | String _ rest => str_contains sub rest
  end.

(** ** Events and exceptions *)

Inductive stream := Stdout | Stderr.

(** The calls the script makes on the web3 client that consult the RPC
    endpoint: [w3.is_connected()], [w3.eth.block_number], and
    [contract.functions.f().call()] on the contract at address [a], written
    [ContractCall a f]. *)
Inductive rpc_request :=
| IsConnected
| BlockNumber
| ContractCall (address : string) (function_name : string).

(** What a run does that can be observed: a line written to a stream, a
    call on the web3 client, and the interpreter's report (on standard
    error) of an exception nobody caught. *)
Inductive event :=
| Print (s : stream) (line : string)
| Rpc (r : rpc_request)
| Traceback (msg : string).

(** The two kinds of Python exception the script meets: ordinary ones, which
    [except Exception] catches, and [SystemExit], which it does not. *)
Inductive exc :=
| Exception (msg : string)
| SystemExit (code : Z).

(** ** The monad *)

Definition M (A : Type) : Type := (list event * (exc + A))%type.

Definition ret {A} (a : A) : M A := ([], inr a).

Definition bind {A B} (m : M A) (k : A -> M B) : M B :=
  match m with
  | (t, inl e) => (t, inl e)
  | (t, inr a) => let (t', r) := k a in (t ++ t', r)
  end.

Declare Scope py_scope.
Delimit Scope py_scope with py.
Notation "x <- m ;; k" := (bind m (fun x => k))
  (at level 100, m at next level, right associativity) : py_scope.
Notation "m ;; k" := (bind m (fun _ => k))
  (at level 100, right associativity) : py_scope.
Open Scope py_scope.

Definition raise {A} (e : exc) : M A := ([], inl e).

(** [print(line)]: the script never passes [file=], so every print goes to
    [sys.stdout]. *)
Definition print (line : string) : M unit := ([Print Stdout line], inr tt).

(** [sys.exit(code)] raises [SystemExit]. *)
Definition sys_exit {A} (code : Z) : M A := raise (SystemExit code).

(** [try: body / except Exception as e: handler e].  A [SystemExit] raised
    in the body passes through. *)
Definition try_except {A} (body : M A) (handler : string -> M A) : M A :=
  match body with
  | (t, inl (Exception msg)) => let (t', r) := handler msg in (t ++ t', r)
  | other => other
  end.

(** A call on the web3 client: recorded in the trace as one event, then
    either the answer or the exception the web3 library raises. *)
Definition rpc {A} (r : rpc_request) (answer : string + A) : M A :=
  ([Rpc r], match answer with
            | inl msg => inl (Exception msg)
            | inr v => inr v
            end).

(** [for x in xs: body x]. *)
Fixpoint for_each {A} (xs : list A) (body : A -> M unit) : M unit :=
  match xs with
  | [] => ret tt
  | x :: rest => body x ;; for_each rest body
  end.

(** ** The network *)

(** What the endpoint answers to each request of a run; [inl msg] is an
    exception with text [msg].  [web3_new] is [Some msg] when building the
    client, [Web3(Web3.HTTPProvider(url))], raises.  The typed fields follow
    the ABIs of lines 28-53: [paused] and [depositsPaused] return a bool,
    [activeVaultsList] a list of addresses; each is indexed by the address
    of the contract called. *)
Record World := {
  web3_new : option string;
  is_connected : string + bool;
  block_number : string + Z;
  call_paused : string -> string + bool;
  call_depositsPaused : string -> string + bool;
  call_activeVaultsList : string -> string + list string
}.

(** ** The two checks (lines 55-82) *)

(** The dict returned by [check_yield_aggregator_state]. *)
Record AggState := {
  paused : bool;
  deposits_paused : bool;
  num_vaults : Z;
  vaults : list string
}.

(** [len(xs)]. *)
Definition len {A} (xs : list A) : Z := Z.of_nat (List.length xs).

Definition check_contract_paused (w3 : World)
    (contract_address contract_name : string) : M (option bool) :=
  try_except
    (is_paused <- rpc (ContractCall contract_address "paused")
                      (call_paused w3 contract_address) ;;
     ret (Some is_paused))
    (fun e =>
       print ("❌ Error checking " ++ contract_name ++ ": " ++ e) ;;
       ret None).

Definition check_yield_aggregator_state (w3 : World) : M (option AggState) :=
  try_except
    (is_paused <- rpc (ContractCall YIELD_AGGREGATOR "paused")
                      (call_paused w3 YIELD_AGGREGATOR) ;;
     deposits_paused <- rpc (ContractCall YIELD_AGGREGATOR "depositsPaused")
                            (call_depositsPaused w3 YIELD_AGGREGATOR) ;;
     vaults <- rpc (ContractCall YIELD_AGGREGATOR "activeVaultsList")
                   (call_activeVaultsList w3 YIELD_AGGREGATOR) ;;
     ret (Some {| paused := is_paused;
                  deposits_paused := deposits_paused;
                  num_vaults := len vaults;
                  vaults := vaults |}))
    (fun e =>
       print ("❌ Error checking YieldAggregator: " ++ e) ;;
       ret None).

(** ** Truth values *)

(** [if x:] for [x] a bool or [None]: [None] and [False] are false. *)
Definition truthy (x : option bool) : bool :=
  match x with
  | Some b => b
  | None => false
  end.

(** ** The readiness verdict (lines 151-170)

    [can_deposit] and [issues] are locals of [main], updated in place; here
    each statement maps the pair of them to its new value.  [if agg_state:]
    is a match on the option: the dict always has its four keys, so it is
    true, and [None] is false. *)

Definition verdict : Type := (bool * list string)%type.

Definition ISSUE_INDIVIDUAL : string := "❌ IndividualPool is paused".
Definition ISSUE_AGG_PAUSED : string := "❌ YieldAggregator is paused".
Definition ISSUE_AGG_DEPOSITS : string := "❌ YieldAggregator deposits are paused".
Definition ISSUE_NO_VAULTS : string := "❌ No vaults configured in YieldAggregator".

(** [can_deposit = False; issues.append(issue)] *)
Definition block (issue : string) (v : verdict) : verdict :=
  (false, snd v ++ [issue]).

(** [if c: can_deposit = False; issues.append(issue)] *)
Definition block_if (c : bool) (issue : string) (v : verdict) : verdict :=
  if c then block issue v else v.

Definition readiness (ind_paused : option bool) (agg_state : option AggState)
    : verdict :=
  let v := (true, []) in
  let v := block_if (truthy ind_paused) ISSUE_INDIVIDUAL v in
  let v :=
    match agg_state with
    | Some st =>
        let v := block_if (paused st) ISSUE_AGG_PAUSED v in
        let v := block_if (deposits_paused st) ISSUE_AGG_DEPOSITS v in
        let v := block_if (num_vaults st =? 0) ISSUE_NO_VAULTS v in
        v
    | None => v
    end in
  v.

(** ** The report and [main] (lines 84-184) *)

Definition LINE_EQ : string := str_mul "=" 60.
Definition LINE_DASH : string := str_mul "-" 60.

(** [status = "PAUSED" if p else "ACTIVE"], with the markers of the source. *)
Definition pool_status (p : bool) : string :=
  if p then "🔴 PAUSED" else "🟢 ACTIVE".

Definition deposits_status (p : bool) : string :=
  if p then "🔴 PAUSED" else "🟢 ENABLED".

(** Lines 94-101. *)
Definition connect (w : World) : M World :=
  try_except
    (match web3_new w with
     | Some msg => raise (Exception msg)
     | None => ret tt
     end ;;
     connected <- rpc IsConnected (is_connected w) ;;
     if negb connected then
       print "❌ Failed to connect to Mezo Testnet RPC" ;;
       sys_exit 1
     else ret w)
    (fun e =>
       print ("❌ Connection error: " ++ e) ;;
       sys_exit 1).

(** Lines 111-116 and 119-124. *)
Definition report_pool (name : string) (p : option bool) : M unit :=
  match p with
  | None => print ("❓ " ++ name ++ ": Status unknown")
  | Some b => print (name ++ ": " ++ pool_status b)
  end.

(** Lines 131-144. *)
Definition report_aggregator (agg_state : option AggState) : M unit :=
  match agg_state with
  | Some st =>
      print ("  Status: " ++ pool_status (paused st)) ;;
      print ("  Deposits: " ++ deposits_status (deposits_paused st)) ;;
      print ("  Configured Vaults: " ++ str_int (num_vaults st)) ;;
      if num_vaults st =? 0 then
        print "  ⚠️  WARNING: No vaults configured!"
      else
        print "  Vaults:" ;;
        for_each (vaults st) (fun vault => print ("    - " ++ vault))
  | None => ret tt
  end.

(** Lines 172-182. *)
Definition report_verdict (v : verdict) : M unit :=
  if fst v then
    print "✅ All checks passed - Deposits should work!"
  else
    print "⚠️  Issues found preventing deposits:" ;;
    for_each (snd v) (fun issue => print ("  " ++ issue)) ;;
    print "" ;;
    print "To fix:" ;;
    print "  1. Run: bash scripts/unpause-contracts.sh" ;;
    print "  2. Ensure DEPLOYER_PRIVATE_KEY environment variable is set" ;;
    print "  3. Ensure MEZO_TESTNET_RPC environment variable is set (optional)".

(** The locals of [main] when it returns. *)
Record Locals := {
  ind_paused : option bool;
  coop_paused : option bool;
  agg_state : option AggState;
  can_deposit : bool;
  issues : list string
}.

(** [main()]; the model returns the locals, which the script drops. *)
Definition main (w : World) : M Locals :=
  print LINE_EQ ;;
  print "🔍 Contract State Checker - KhipuVault" ;;
  print LINE_EQ ;;
  print ("Network: Mezo Testnet (Chain ID: " ++ str_int CHAIN_ID ++ ")") ;;
  print ("RPC: " ++ MEZO_TESTNET_RPC) ;;
  print "" ;;
  w3 <- connect w ;;
  block <- rpc BlockNumber (block_number w3) ;;
  print ("✓ Connected to Mezo Testnet (Block: " ++ str_int block ++ ")") ;;
  print "" ;;
  print "Contract Status:" ;;
  print LINE_DASH ;;
  ind_paused <- check_contract_paused w3 INDIVIDUAL_POOL "IndividualPool" ;;
  report_pool "IndividualPool" ind_paused ;;
  coop_paused <- check_contract_paused w3 COOPERATIVE_POOL "CooperativePool" ;;
  report_pool "CooperativePool" coop_paused ;;
  print "" ;;
  print "YieldAggregator Details:" ;;
  print LINE_DASH ;;
  agg_state <- check_yield_aggregator_state w3 ;;
  report_aggregator agg_state ;;
  print "" ;;
  print LINE_EQ ;;
  print "Summary:" ;;
  print LINE_DASH ;;
  let v := readiness ind_paused agg_state in
  report_verdict v ;;
  print LINE_EQ ;;
  ret {| ind_paused := ind_paused;
         coop_paused := coop_paused;
         agg_state := agg_state;
         can_deposit := fst v;
         issues := snd v |}.

(** ** A run of the script

    [if __name__ == "__main__": main()].  A normal return ends the process
    with status 0, [sys.exit(code)] with [code], and an exception that
    reaches the top level makes the interpreter print a traceback and end
    with status 1. *)
Record Run := {
  trace : list event;
  exit_status : Z;
  final : option Locals
}.

Definition run (w : World) : Run :=
  match main w with
  | (t, inr l) => {| trace := t; exit_status := 0; final := Some l |}
  | (t, inl (SystemExit code)) =>
      {| trace := t; exit_status := code; final := None |}
  | (t, inl (Exception msg)) =>
      {| trace := t ++ [Traceback msg]; exit_status := 1; final := None |}
  end.

(** ** Observations on a trace *)

Definition stream_eqb (a b : stream) : bool :=
  match a, b with
  | Stdout, Stdout | Stderr, Stderr => true
  | _, _ => false
  end.

(** The lines the script prints to a stream, in order. *)
Fixpoint output (s : stream) (t : list event) : list string :=
  match t with
  | [] => []
  | Print s' line :: rest =>
      if stream_eqb s s' then line :: output s rest else output s rest
  | _ :: rest => output s rest
  end.

(** Whether anything at all reaches standard error: a print to it, or the
    interpreter's traceback. *)
Definition on_stderr (e : event) : bool :=
  match e with
  | Print Stderr _ => true
  | Traceback _ => true
  | _ => false
  end.

(** The contract calls issued, in order, as (address, function) pairs. *)
Fixpoint contract_calls (t : list event) : list (string * string) :=
  match t with
  | [] => []
  | Rpc (ContractCall a f) :: rest => (a, f) :: contract_calls rest
  | _ :: rest => contract_calls rest
  end.

(** ** Sample worlds *)

Definition VAULT_A : string := "0x1111111111111111111111111111111111111111".
Definition VAULT_B : string := "0x2222222222222222222222222222222222222222".
Definition VAULT_C : string := "0x3333333333333333333333333333333333333333".

Definition healthy : World := {|
  web3_new := None;
  is_connected := inr true;
  block_number := inr 1234;
  call_paused := fun _ => inr false;
  call_depositsPaused := fun _ => inr false;
  call_activeVaultsList := fun _ => inr [VAULT_A; VAULT_B; VAULT_C]
|}.

(** ** What each check returns, read off the world *)

(** The value of [check_contract_paused] on the contract at [a]. *)
Definition pool_result (w : World) (a : string) : option bool :=
  match call_paused w a with
  | inr b => Some b
  | inl _ => None
  end.

(** The value of [check_yield_aggregator_state]. *)
Definition agg_result (w : World) : option AggState :=
  match call_paused w YIELD_AGGREGATOR,
        call_depositsPaused w YIELD_AGGREGATOR,
        call_activeVaultsList w YIELD_AGGREGATOR with
  | inr p, inr d, inr vs =>
      Some {| paused := p; deposits_paused := d;
              num_vaults := len vs; vaults := vs |}
  | _, _, _ => None
  end.

(** One of the three aggregator calls fails. *)
Definition agg_call_fails (w : World) : Prop :=
  (exists e, call_paused w YIELD_AGGREGATOR = inl e) \/
  (exists e, call_depositsPaused w YIELD_AGGREGATOR = inl e) \/
  (exists e, call_activeVaultsList w YIELD_AGGREGATOR = inl e).

(** The client was built and [w3.is_connected()] answered [True]. *)
Definition connection_established (w : World) : bool :=
  match web3_new w, is_connected w with
  | None, inr true => true
  | _, _ => false
  end.

(** The read of [w3.eth.block_number] at line 103 returned. *)
Definition block_number_read (w : World) : bool :=
  match block_number w with
  | inr _ => true
  | inl _ => false
  end.

(** The run reaches line 104, past the whole connection step. *)
Definition past_connection (w : World) : bool :=
  connection_established w && block_number_read w.

(** The contract calls of the aggregator inspection: it stops at the first
    call that fails. *)
Definition agg_calls (w : World) : list (string * string) :=
  (YIELD_AGGREGATOR, "paused") ::
  match call_paused w YIELD_AGGREGATOR with
  | inl _ => []
  | inr _ =>
      (YIELD_AGGREGATOR, "depositsPaused") ::
      match call_depositsPaused w YIELD_AGGREGATOR with
      | inl _ => []
      | inr _ => [(YIELD_AGGREGATOR, "activeVaultsList")]
      end
  end.

(** Replace the answer to [paused()] on the contract at [a]. *)
Definition with_paused (a : string) (r : string + bool) (w : World) : World :=
  {| web3_new := web3_new w;
     is_connected := is_connected w;
     block_number := block_number w;
     call_paused := fun x => if String.eqb x a then r else call_paused w x;
     call_depositsPaused := call_depositsPaused w;
     call_activeVaultsList := call_activeVaultsList w |}.

(** Replace the three answers of the aggregator. *)
Definition with_aggregator (p d : string + bool) (vs : string + list string)
    (w : World) : World :=
  {| web3_new := web3_new w;
     is_connected := is_connected w;
     block_number := block_number w;
     call_paused := fun x => if String.eqb x YIELD_AGGREGATOR then p
                             else call_paused w x;
     call_depositsPaused := fun _ => d;
     call_activeVaultsList := fun _ => vs |}.

(** A computation that writes lines to standard output, raises nothing and
    sends nothing to the endpoint. *)
Definition prints_only (m : M unit) : Prop :=
  exists lines, m = (map (Print Stdout) lines, inr tt).

(** The value of [main]: an early exit, an exception out of the block
    number read, or the locals with the verdict of [readiness]. *)
Definition main_result (w : World) : exc + Locals :=
  if connection_established w then
    match block_number w with
    | inl e => inl (Exception e)
    | inr _ =>
        let v := readiness (pool_result w INDIVIDUAL_POOL) (agg_result w) in
        inr {| ind_paused := pool_result w INDIVIDUAL_POOL;
               coop_paused := pool_result w COOPERATIVE_POOL;
               agg_state := agg_result w;
               can_deposit := fst v;
               issues := snd v |}
    end
  else inl (SystemExit 1).

(** The message of the exception that makes the aggregator inspection fail:
    that of the first failing call. *)
Definition agg_error (w : World) : option string :=
  match call_paused w YIELD_AGGREGATOR with
  | inl e => Some e
  | inr _ =>
      match call_depositsPaused w YIELD_AGGREGATOR with
      | inl e => Some e
      | inr _ =>
          match call_activeVaultsList w YIELD_AGGREGATOR with
          | inl e => Some e
          | inr _ => None
          end
      end
  end.

(** Two worlds that answer alike to everything but [paused()] on
    CooperativePool. *)
Definition same_but_coop (w1 w2 : World) : Prop :=
  web3_new w1 = web3_new w2 /\
  is_connected w1 = is_connected w2 /\
  block_number w1 = block_number w2 /\
  call_paused w1 INDIVIDUAL_POOL = call_paused w2 INDIVIDUAL_POOL /\
  call_paused w1 YIELD_AGGREGATOR = call_paused w2 YIELD_AGGREGATOR /\
  call_depositsPaused w1 YIELD_AGGREGATOR =
    call_depositsPaused w2 YIELD_AGGREGATOR /\
  call_activeVaultsList w1 YIELD_AGGREGATOR =
    call_activeVaultsList w2 YIELD_AGGREGATOR.

(** The issue strings [main] can append. *)
Definition KNOWN_ISSUES : list string :=
  [ISSUE_INDIVIDUAL; ISSUE_AGG_PAUSED; ISSUE_AGG_DEPOSITS; ISSUE_NO_VAULTS].

(** More sample worlds: the block number read fails after a successful
    connection; [paused()] fails on one contract; the endpoint is down. *)
Definition block_read_fails : World := {|
  web3_new := None;
  is_connected := inr true;
  block_number := inl "timeout";
  call_paused := fun _ => inr false;
  call_depositsPaused := fun _ => inr false;
  call_activeVaultsList := fun _ => inr [VAULT_A]
|}.

Definition individual_fails : World :=
  with_paused INDIVIDUAL_POOL (inl "boom") healthy.

Definition cooperative_fails : World :=
  with_paused COOPERATIVE_POOL (inl "boom") healthy.

Definition cooperative_paused : World :=
  with_paused COOPERATIVE_POOL (inr true) healthy.

Definition individual_paused_no_aggregator : World :=
  with_aggregator (inr false) (inl "execution reverted") (inr [])
    (with_paused INDIVIDUAL_POOL (inr true) healthy).

Definition unreachable : World := {|
  web3_new := None;
  is_connected := inr false;
  block_number := inl "down";
  call_paused := fun _ => inl "down";
  call_depositsPaused := fun _ => inl "down";
  call_activeVaultsList := fun _ => inl "down"
|}.

(** ** Further observations *)

(** The calls made on the web3 client, in order. *)
Fixpoint requests (t : list event) : list rpc_request :=
  match t with
  | [] => []
  | Rpc r :: rest => r :: requests rest
  | _ :: rest => requests rest
  end.

(** Every call on the web3 client the script contains, in program order. *)
Definition ALL_REQUESTS : list rpc_request :=
  [IsConnected; BlockNumber;
   ContractCall INDIVIDUAL_POOL "paused";
   ContractCall COOPERATIVE_POOL "paused";
   ContractCall YIELD_AGGREGATOR "paused";
   ContractCall YIELD_AGGREGATOR "depositsPaused";
   ContractCall YIELD_AGGREGATOR "activeVaultsList"].

(** The lines of the banner (lines 86-91). *)
Definition BANNER : list string :=
  [LINE_EQ;
   "🔍 Contract State Checker - KhipuVault";
   LINE_EQ;
   "Network: Mezo Testnet (Chain ID: " ++ str_int CHAIN_ID ++ ")";
   "RPC: " ++ MEZO_TESTNET_RPC;
   ""]%string.

(** The remediation hint that closes a failing summary (lines 178-182). *)
Definition REMEDIATION : list string :=
  [""; "To fix:";
   "  1. Run: bash scripts/unpause-contracts.sh";
   "  2. Ensure DEPLOYER_PRIVATE_KEY environment variable is set";
   "  3. Ensure MEZO_TESTNET_RPC environment variable is set (optional)"].

(** [t] occurs in [u] as a contiguous block. *)
Definition occurs_in {A} (t u : list A) : Prop :=
  exists pre post, u = pre ++ t ++ post.

(** [t] is the end of [u]. *)
Definition ends_with {A} (t u : list A) : Prop :=
  exists pre, u = pre ++ t.

(** [t] is the beginning of [u]. *)
Definition starts_with {A} (t u : list A) : Prop :=
  exists rest, u = t ++ rest.

(** The endpoint answers [False] to [is_connected()], or raises there, or
    the client cannot even be built. *)
Definition client_fails : World := {|
  web3_new := Some "invalid URL";
  is_connected := inr true;
  block_number := inr 1;
  call_paused := fun _ => inr false;
  call_depositsPaused := fun _ => inr false;
  call_activeVaultsList := fun _ => inr []
|}.

(** What the healthy run ends with. *)
Definition healthy_state : AggState :=
  {| paused := false; deposits_paused := false;
     num_vaults := 3; vaults := [VAULT_A; VAULT_B; VAULT_C] |}.

Definition healthy_locals : Locals :=
  {| ind_paused := Some false; coop_paused := Some false;
     agg_state := Some healthy_state; can_deposit := true; issues := [] |}.

(** Connected, but every contract call raises. *)
Definition all_calls_fail : World := {|
  web3_new := None;
  is_connected := inr true;
  block_number := inr 1234;
  call_paused := fun _ => inl "execution reverted";
  call_depositsPaused := fun _ => inl "execution reverted";
  call_activeVaultsList := fun _ => inl "execution reverted"
|}.

Definition everything_paused : World :=
  with_aggregator (inr true) (inr true) (inr [])
    (with_paused INDIVIDUAL_POOL (inr true) healthy).

(** * Properties *)

(** ** The monad's laws of motion *)

Section MonadFacts.
Context {A B : Type}.

Lemma fst_bind (m : M A) (k : A -> M B) :
  fst (bind m k) =
  fst m ++ match snd m with inr a => fst (k a) | inl _ => [] end.
Proof.
  destruct m as [t [e | a]]; simpl.
  - now rewrite app_nil_r.
  - now destruct (k a).
Qed.

Lemma snd_bind (m : M A) (k : A -> M B) :
  snd (bind m k) =
  match snd m with inr a => snd (k a) | inl e => inl e end.
Proof.
  destruct m as [t [e | a]]; simpl; [reflexivity | now destruct (k a)].
Qed.

End MonadFacts.

Lemma contract_calls_app (t u : list event) :
  contract_calls (t ++ u) = contract_calls t ++ contract_calls u.
Proof.
  induction t as [| [s l | [ | | a f] | msg] t IH]; simpl; congruence.
Qed.

Lemma output_app (s : stream) (t u : list event) :
  output s (t ++ u) = output s t ++ output s u.
Proof.
  induction t as [| [s' l | r | msg] t IH]; simpl; try congruence.
  destruct (stream_eqb s s'); simpl; congruence.
Qed.

(** ** The pieces of the report only print *)

Lemma prints_only_print (line : string) : prints_only (print line).
Proof. now exists [line]. Qed.

Lemma prints_only_ret : prints_only (ret tt).
Proof. now exists []. Qed.

Lemma prints_only_bind (m : M unit) (k : unit -> M unit) :
  prints_only m -> prints_only (k tt) -> prints_only (bind m k).
Proof.
  intros [l ->] [l' Hk]. exists (l ++ l').
  simpl. rewrite Hk. now rewrite map_app.
Qed.

Lemma prints_only_for_each {A} (xs : list A) (f : A -> string) :
  prints_only (for_each xs (fun x => print (f x))).
Proof.
  induction xs as [| x xs IH]; cbn [for_each].
  - apply prints_only_ret.
  - apply prints_only_bind; [apply prints_only_print | exact IH].
Qed.

Create HintDb py.

#[local] Hint Resolve prints_only_print prints_only_ret prints_only_bind
  prints_only_for_each : py.

Lemma prints_only_report_pool (name : string) (p : option bool) :
  prints_only (report_pool name p).
Proof. destruct p; cbn [report_pool]; auto with py. Qed.

Lemma prints_only_report_aggregator (a : option AggState) :
  prints_only (report_aggregator a).
Proof.
  destruct a as [st |]; unfold report_aggregator; auto with py.
  destruct (num_vaults st =? 0); auto 10 with py.
Qed.

Lemma prints_only_report_verdict (v : verdict) :
  prints_only (report_verdict v).
Proof.
  unfold report_verdict. destruct (fst v); auto 20 with py.
Qed.

#[local] Hint Resolve prints_only_report_pool prints_only_report_aggregator
  prints_only_report_verdict : py.

Lemma snd_prints_only (m : M unit) : prints_only m -> snd m = inr tt.
Proof. now intros [l ->]. Qed.

(** ** The value of each step *)

Lemma check_contract_paused_value (w : World) (a name : string) :
  snd (check_contract_paused w a name) = inr (pool_result w a).
Proof.
  unfold check_contract_paused, pool_result.
  now destruct (call_paused w a).
Qed.

Lemma check_yield_aggregator_state_value (w : World) :
  snd (check_yield_aggregator_state w) = inr (agg_result w).
Proof.
  unfold check_yield_aggregator_state, agg_result.
  destruct (call_paused w YIELD_AGGREGATOR); [reflexivity |].
  destruct (call_depositsPaused w YIELD_AGGREGATOR); [reflexivity |].
  now destruct (call_activeVaultsList w YIELD_AGGREGATOR).
Qed.

Lemma connect_value (w : World) :
  snd (connect w) =
  if connection_established w then inr w else inl (SystemExit 1).
Proof.
  unfold connect, connection_established.
  destruct (web3_new w); [reflexivity |].
  now destruct (is_connected w) as [e | [|]].
Qed.

Ltac skip_prints :=
  repeat (rewrite (snd_bind (A := unit)), snd_prints_only by auto with py).

Lemma main_value (w : World) : snd (main w) = main_result w.
Proof.
  unfold main, main_result.
  skip_prints.
  rewrite snd_bind, connect_value.
  destruct (connection_established w); [| reflexivity].
  rewrite snd_bind. unfold rpc at 1. cbn [snd].
  destruct (block_number w) as [e | b]; [reflexivity |].
  skip_prints.
  rewrite snd_bind, check_contract_paused_value. skip_prints.
  rewrite snd_bind, check_contract_paused_value. skip_prints.
  rewrite snd_bind, check_yield_aggregator_state_value. skip_prints.
  reflexivity.
Qed.

(** ** Observations that ignore what is printed

    An observation [obs] of a trace that is additive and blind to prints
    sees of [main] only its five steps that talk to the endpoint. *)

Section Observation.
Context {X : Type} (obs : list event -> list X).
Hypothesis obs_nil : obs [] = [].
Hypothesis obs_app : forall t u, obs (t ++ u) = obs t ++ obs u.
Hypothesis obs_print : forall line, obs [Print Stdout line] = [].

Lemma obs_prints_only (m : M unit) : prints_only m -> obs (fst m) = [].
Proof.
  intros [l ->]; cbn [fst]. induction l as [| x l IH]; [exact obs_nil |].
  change (map (Print Stdout) (x :: l))
    with ([Print Stdout x] ++ map (Print Stdout) l).
  now rewrite obs_app, obs_print, IH.
Qed.

Lemma obs_bind {A B} (m : M A) (k : A -> M B) :
  obs (fst (bind m k)) =
  obs (fst m) ++ match snd m with inr a => obs (fst (k a)) | inl _ => [] end.
Proof.
  rewrite fst_bind, obs_app. destruct (snd m); [| reflexivity].
  now rewrite obs_nil.
Qed.

Lemma obs_bind_prints {B} (m : M unit) (k : unit -> M B) :
  prints_only m -> obs (fst (bind m k)) = obs (fst (k tt)).
Proof.
  intros H. rewrite obs_bind, (obs_prints_only m H).
  now rewrite (snd_prints_only m H).
Qed.

Ltac skip_obs_prints :=
  repeat (rewrite (obs_bind_prints (B := _)) by auto with py).

Lemma obs_main (w : World) :
  obs (fst (main w)) =
  obs (fst (connect w)) ++
  if connection_established w then
    obs [Rpc BlockNumber] ++
    if block_number_read w then
      obs (fst (check_contract_paused w INDIVIDUAL_POOL "IndividualPool")) ++
      obs (fst (check_contract_paused w COOPERATIVE_POOL "CooperativePool")) ++
      obs (fst (check_yield_aggregator_state w))
    else []
  else [].
Proof.
  unfold main, block_number_read.
  skip_obs_prints.
  rewrite obs_bind, connect_value. f_equal.
  destruct (connection_established w); [| reflexivity].
  rewrite obs_bind. unfold rpc at 1 2. cbn [fst snd]. f_equal.
  destruct (block_number w) as [e | b]; [reflexivity |].
  skip_obs_prints.
  rewrite obs_bind, check_contract_paused_value. f_equal.
  skip_obs_prints.
  rewrite obs_bind, check_contract_paused_value. f_equal.
  skip_obs_prints.
  rewrite obs_bind, check_yield_aggregator_state_value.
  skip_obs_prints.
  cbn [ret fst]. now rewrite obs_nil, app_nil_r.
Qed.
End Observation.

(** ** The contract calls of a run *)

Lemma check_contract_paused_calls (w : World) (a name : string) :
  contract_calls (fst (check_contract_paused w a name)) = [(a, "paused")].
Proof.
  unfold check_contract_paused. now destruct (call_paused w a).
Qed.

Lemma check_yield_aggregator_state_calls (w : World) :
  contract_calls (fst (check_yield_aggregator_state w)) = agg_calls w.
Proof.
  unfold check_yield_aggregator_state, agg_calls.
  destruct (call_paused w YIELD_AGGREGATOR); [reflexivity |].
  destruct (call_depositsPaused w YIELD_AGGREGATOR); [reflexivity |].
  now destruct (call_activeVaultsList w YIELD_AGGREGATOR).
Qed.

Lemma connect_calls (w : World) : contract_calls (fst (connect w)) = [].
Proof.
  unfold connect.
  destruct (web3_new w); [reflexivity |].
  now destruct (is_connected w) as [e | [|]].
Qed.

Lemma main_calls (w : World) :
  contract_calls (fst (main w)) =
  if past_connection w then
    (INDIVIDUAL_POOL, "paused") :: (COOPERATIVE_POOL, "paused") :: agg_calls w
  else [].
Proof.
  rewrite (obs_main contract_calls eq_refl contract_calls_app
             (fun _ => eq_refl)).
  rewrite connect_calls, !check_contract_paused_calls,
    check_yield_aggregator_state_calls.
  unfold past_connection.
  now destruct (connection_established w), (block_number_read w).
Qed.

Lemma run_calls (w : World) :
  contract_calls (trace (run w)) = contract_calls (fst (main w)).
Proof.
  unfold run. destruct (main w) as [t [[msg | code] | l]]; cbn [trace fst];
    try reflexivity.
  rewrite contract_calls_app. apply app_nil_r.
Qed.

(** ** What the script prints to standard error *)

Lemma main_stderr (w : World) : output Stderr (fst (main w)) = [].
Proof.
  rewrite (obs_main (output Stderr) eq_refl (output_app Stderr)
             (fun _ => eq_refl)).
  assert (Hc : output Stderr (fst (connect w)) = []).
  { unfold connect. destruct (web3_new w); [reflexivity |].
    now destruct (is_connected w) as [e | [|]]. }
  assert (Hp : forall a n,
             output Stderr (fst (check_contract_paused w a n)) = []).
  { intros a n. unfold check_contract_paused.
    now destruct (call_paused w a). }
  assert (Ha : output Stderr (fst (check_yield_aggregator_state w)) = []).
  { unfold check_yield_aggregator_state.
    destruct (call_paused w YIELD_AGGREGATOR); [reflexivity |].
    destruct (call_depositsPaused w YIELD_AGGREGATOR); [reflexivity |].
    now destruct (call_activeVaultsList w YIELD_AGGREGATOR). }
  rewrite Hc, !Hp, Ha.
  now destruct (connection_established w), (block_number_read w).
Qed.

Lemma run_stderr (w : World) : output Stderr (trace (run w)) = [].
Proof.
  generalize (main_stderr w). unfold run.
  destruct (main w) as [t [[msg | code] | l]]; cbn [trace fst]; auto.
  intros H. now rewrite output_app, H.
Qed.

(** ** Exit status and final locals of a run *)

Lemma run_exit_status (w : World) :
  exit_status (run w) = if past_connection w then 0 else 1.
Proof.
  generalize (main_value w). unfold run, main_result, past_connection,
    block_number_read.
  destruct (main w) as [t [[msg | code] | l]]; cbn [snd exit_status];
    destruct (connection_established w), (block_number w);
    cbn [andb]; congruence.
Qed.

Lemma run_final (w : World) :
  final (run w) =
  if past_connection w then
    let v := readiness (pool_result w INDIVIDUAL_POOL) (agg_result w) in
    Some {| ind_paused := pool_result w INDIVIDUAL_POOL;
            coop_paused := pool_result w COOPERATIVE_POOL;
            agg_state := agg_result w;
            can_deposit := fst v;
            issues := snd v |}
  else None.
Proof.
  generalize (main_value w). unfold run, main_result, past_connection,
    block_number_read.
  destruct (main w) as [t [[msg | code] | l]]; cbn [snd final];
    destruct (connection_established w), (block_number w);
    cbn [andb]; congruence.
Qed.

(** ** Finding an event in the trace of [main] *)

Lemma In_bind_l {A B} (e : event) (m : M A) (k : A -> M B) :
  In e (fst m) -> In e (fst (bind m k)).
Proof. intros H. rewrite fst_bind. apply in_or_app. now left. Qed.

Lemma In_bind_r {A B} (e : event) (m : M A) (k : A -> M B) (a : A) :
  snd m = inr a -> In e (fst (k a)) -> In e (fst (bind m k)).
Proof.
  intros Hm H. rewrite fst_bind, Hm. apply in_or_app. now right.
Qed.

Lemma In_output (s : stream) (line : string) (t : list event) :
  In (Print s line) t -> In line (output s t).
Proof.
  induction t as [| [s' l | r | msg] t IH]; simpl; auto.
  - intros [H | H].
    + injection H as -> ->. destruct s; simpl; auto.
    + destruct (stream_eqb s s'); simpl; auto.
  - intros [H | H]; [discriminate | auto].
  - intros [H | H]; [discriminate | auto].
Qed.

Lemma In_run (e : event) (w : World) :
  In e (fst (main w)) -> In e (trace (run w)).
Proof.
  unfold run. destruct (main w) as [t [[msg | code] | l]]; cbn [trace fst];
    auto.
  intros H. apply in_or_app. now left.
Qed.

Lemma connect_value_ok (w : World) :
  connection_established w = true -> snd (connect w) = inr w.
Proof. intros H. now rewrite connect_value, H. Qed.

Lemma block_number_value_ok (w : World) :
  block_number_read w = true ->
  exists b, snd (rpc BlockNumber (block_number w)) = inr b.
Proof.
  unfold block_number_read. destruct (block_number w) as [e | b];
    [discriminate | now exists b].
Qed.

(** Step over a statement of [main] that returns. *)
Ltac over :=
  eapply In_bind_r;
  [ first [ apply snd_prints_only; solve [auto with py]
          | apply check_contract_paused_value
          | apply check_yield_aggregator_state_value
          | eassumption ]
  | ].

Lemma past_connection_inv (w : World) :
  past_connection w = true ->
  snd (connect w) = inr w /\
  exists b, snd (rpc BlockNumber (block_number w)) = inr b.
Proof.
  unfold past_connection. intros H. apply andb_prop in H as [Hc Hb].
  split; [now apply connect_value_ok | now apply block_number_value_ok].
Qed.

(** The error line of a failed pause check on IndividualPool is printed. *)
Lemma main_prints_individual_error (w : World) (e : string) :
  past_connection w = true ->
  call_paused w INDIVIDUAL_POOL = inl e ->
  In (Print Stdout ("❌ Error checking IndividualPool: " ++ e)) (fst (main w)).
Proof.
  intros Hp He. apply past_connection_inv in Hp as [Hc [b Hb]].
  unfold main. do 12 over.
  apply In_bind_l. unfold check_contract_paused. rewrite He.
  cbn. auto.
Qed.

Lemma main_prints_cooperative_error (w : World) (e : string) :
  past_connection w = true ->
  call_paused w COOPERATIVE_POOL = inl e ->
  In (Print Stdout ("❌ Error checking CooperativePool: " ++ e)) (fst (main w)).
Proof.
  intros Hp He. apply past_connection_inv in Hp as [Hc [b Hb]].
  unfold main. do 14 over.
  apply In_bind_l. unfold check_contract_paused. rewrite He.
  cbn. auto.
Qed.

Lemma main_prints_aggregator_error (w : World) (e : string) :
  past_connection w = true ->
  agg_error w = Some e ->
  In (Print Stdout ("❌ Error checking YieldAggregator: " ++ e)) (fst (main w)).
Proof.
  intros Hp He. apply past_connection_inv in Hp as [Hc [b Hb]].
  unfold main. do 19 over.
  apply In_bind_l. revert He.
  unfold check_yield_aggregator_state, agg_error.
  destruct (call_paused w YIELD_AGGREGATOR);
    [intros [= ->]; cbn; auto |].
  destruct (call_depositsPaused w YIELD_AGGREGATOR);
    [intros [= ->]; cbn; auto |].
  destruct (call_activeVaultsList w YIELD_AGGREGATOR);
    [intros [= ->]; cbn; auto | discriminate].
Qed.

(** The summary header is printed in every run past the connection. *)
Lemma main_prints_summary (w : World) :
  past_connection w = true ->
  In (Print Stdout "Summary:") (fst (main w)).
Proof.
  intros Hp. apply past_connection_inv in Hp as [Hc [b Hb]].
  unfold main. do 23 over.
  apply In_bind_l. cbn. auto.
Qed.

(** ** Facts about [readiness] *)

Lemma readiness_issues_known (ip : option bool) (ag : option AggState)
    (i : string) :
  In i (snd (readiness ip ag)) -> In i KNOWN_ISSUES.
Proof.
  unfold readiness, block_if, block, KNOWN_ISSUES.
  destruct ip as [[|] |], ag as [[[|] [|] n vs] |]; cbn [truthy paused
    deposits_paused num_vaults snd app]; try destruct (n =? 0);
    cbn [snd app In]; tauto.
Qed.

Lemma connection_same (w1 w2 : World) :
  same_but_coop w1 w2 -> past_connection w1 = past_connection w2.
Proof.
  intros (Hn & Hc & Hb & _).
  unfold past_connection, connection_established, block_number_read.
  now rewrite Hn, Hc, Hb.
Qed.

Lemma checks_same (w1 w2 : World) :
  same_but_coop w1 w2 ->
  pool_result w1 INDIVIDUAL_POOL = pool_result w2 INDIVIDUAL_POOL /\
  agg_result w1 = agg_result w2.
Proof.
  intros (_ & _ & _ & Hi & Hp & Hd & Hv).
  unfold pool_result, agg_result. now rewrite Hi, Hp, Hd, Hv.
Qed.

Lemma agg_calls_target (w : World) (a f : string) :
  In (a, f) (agg_calls w) -> a = YIELD_AGGREGATOR.
Proof.
  unfold agg_calls.
  destruct (call_paused w YIELD_AGGREGATOR);
    [| destruct (call_depositsPaused w YIELD_AGGREGATOR)];
    cbn [In]; intuition congruence.
Qed.

Lemma mezo_integration_not_queried :
  ~ In MEZO_INTEGRATION [INDIVIDUAL_POOL; COOPERATIVE_POOL; YIELD_AGGREGATOR].
Proof.
  intros [H | [H | [H | []]]]; symmetry in H; revert H;
    apply String.eqb_neq; reflexivity.
Qed.

(** A run that issues a contract call is past the connection step. *)
Lemma contract_call_past_connection (w : World) (c : string * string) :
  In c (contract_calls (trace (run w))) -> past_connection w = true.
Proof.
  rewrite run_calls, main_calls. now destruct (past_connection w).
Qed.

(** * The claims *)

(** C1. With the aggregator state available, for all boolean values of
    individualPaused, aggregatorPaused and aggregatorDepositsPaused and
    every vaultCount >= 0, the verdict has canDeposit = true if and only if
    the three flags are false and vaultCount > 0. *)
Theorem can_deposit_iff_all_clear
    (individualPaused aggregatorPaused aggregatorDepositsPaused : bool)
    (vaultCount : Z) (vaultAddresses : list string) :
  0 <= vaultCount ->
  fst (readiness (Some individualPaused)
         (Some {| paused := aggregatorPaused;
                  deposits_paused := aggregatorDepositsPaused;
                  num_vaults := vaultCount;
                  vaults := vaultAddresses |})) = true
  <->
  individualPaused = false /\ aggregatorPaused = false /\
  aggregatorDepositsPaused = false /\ vaultCount > 0.
Proof.
  intros Hn. unfold readiness, block_if, block.
  cbn [truthy paused deposits_paused num_vaults].
  destruct (Z.eqb_spec vaultCount 0) as [-> | Hz];
    destruct individualPaused, aggregatorPaused, aggregatorDepositsPaused;
    cbn [fst]; split; try discriminate; try lia;
    try (intros (? & ? & ? & ?); discriminate || lia);
    intros _; repeat split; lia.
Qed.

Lemma can_deposit_iff_all_clear_witness :
  0 <= 3 /\
  (fst (readiness (Some false)
          (Some {| paused := false; deposits_paused := false;
                   num_vaults := 3; vaults := [VAULT_A; VAULT_B; VAULT_C] |})) = true
   <-> false = false /\ false = false /\ false = false /\ 3 > 0).
Proof.
  split; [lia |].
  apply (can_deposit_iff_all_clear false false false 3
           [VAULT_A; VAULT_B; VAULT_C]).
  lia.
Defined.

(** C2. Two runs that differ only in the answer to CooperativePool's
    [paused()] end with the same canDeposit and the same issues list, and no
    issue string of either run mentions CooperativePool. *)
Theorem cooperative_pool_never_affects_verdict (w1 w2 : World) :
  same_but_coop w1 w2 ->
  option_map can_deposit (final (run w1)) =
    option_map can_deposit (final (run w2)) /\
  option_map issues (final (run w1)) = option_map issues (final (run w2)) /\
  forall l i,
    final (run w1) = Some l \/ final (run w2) = Some l ->
    In i (issues l) ->
    str_contains "CooperativePool" i = false.
Proof.
  intros H. pose proof (connection_same _ _ H) as Hc.
  destruct (checks_same _ _ H) as [Hi Ha].
  rewrite !run_final, Hc, Hi, Ha.
  destruct (past_connection w2); cbn [option_map can_deposit issues];
    (split; [reflexivity | split; [reflexivity |]]);
    intros l i Hl Hin; [| now destruct Hl].
  assert (Hs : issues l =
               snd (readiness (pool_result w2 INDIVIDUAL_POOL) (agg_result w2))).
  { now destruct Hl as [[= <-] | [= <-]]. }
  rewrite Hs in Hin.
  apply readiness_issues_known in Hin.
  unfold KNOWN_ISSUES in Hin. cbn [In] in Hin.
  destruct Hin as [<- | [<- | [<- | [<- | []]]]]; reflexivity.
Qed.

Lemma cooperative_pool_never_affects_verdict_witness :
  same_but_coop cooperative_paused cooperative_fails /\
  option_map can_deposit (final (run cooperative_paused)) =
    option_map can_deposit (final (run cooperative_fails)) /\
  option_map issues (final (run cooperative_paused)) =
    option_map issues (final (run cooperative_fails)).
Proof.
  assert (H : same_but_coop cooperative_paused cooperative_fails).
  { repeat split; reflexivity. }
  split; [exact H |].
  destruct (cooperative_pool_never_affects_verdict _ _ H) as (Hc & Hi & _).
  split; [exact Hc | exact Hi].
Defined.

(** C3. If one of the three aggregator calls fails, the inspection returns
    [None], never a partial state; the verdict of the run then has no
    aggregator issue, and canDeposit is the negation of IndividualPool's
    pause status alone. *)
Theorem aggregator_failure_is_all_or_nothing (w : World) :
  agg_call_fails w ->
  snd (check_yield_aggregator_state w) = inr None /\
  (past_connection w = true ->
   exists l,
     final (run w) = Some l /\
     agg_state l = None /\
     ind_paused l = pool_result w INDIVIDUAL_POOL /\
     can_deposit l = negb (truthy (ind_paused l)) /\
     issues l = (if truthy (ind_paused l) then [ISSUE_INDIVIDUAL] else []) /\
     ~ In ISSUE_AGG_PAUSED (issues l) /\
     ~ In ISSUE_AGG_DEPOSITS (issues l) /\
     ~ In ISSUE_NO_VAULTS (issues l)).
Proof.
  intros Hf.
  assert (Ha : agg_result w = None).
  { unfold agg_result.
    destruct Hf as [[e ->] | [[e ->] | [e ->]]]; [reflexivity | |].
    - now destruct (call_paused w YIELD_AGGREGATOR).
    - now destruct (call_paused w YIELD_AGGREGATOR),
        (call_depositsPaused w YIELD_AGGREGATOR). }
  split.
  - now rewrite check_yield_aggregator_state_value, Ha.
  - intros Hp. rewrite run_final, Hp, Ha. eexists. split; [reflexivity |].
    cbn [agg_state ind_paused can_deposit issues].
    unfold readiness, block_if, block.
    destruct (truthy (pool_result w INDIVIDUAL_POOL)); cbn [fst snd app negb];
      repeat split; try reflexivity; cbn [In]; intuition discriminate.
Qed.

Lemma aggregator_failure_is_all_or_nothing_witness :
  agg_call_fails individual_paused_no_aggregator /\
  past_connection individual_paused_no_aggregator = true /\
  snd (check_yield_aggregator_state individual_paused_no_aggregator)
    = inr None /\
  option_map issues (final (run individual_paused_no_aggregator))
    = Some [ISSUE_INDIVIDUAL].
Proof.
  assert (Hf : agg_call_fails individual_paused_no_aggregator).
  { right; left. exists "execution reverted". reflexivity. }
  destruct (aggregator_failure_is_all_or_nothing _ Hf) as [Hs Hr].
  destruct (Hr eq_refl) as (l & Hl & _ & Hi & _ & Hl' & _).
  split; [exact Hf | split; [reflexivity | split; [exact Hs |]]].
  rewrite Hl. cbn [option_map]. rewrite Hl', Hi. reflexivity.
Defined.

(** Where the block number read returns, the exit status is the one the
    connection decides: 1 when the connection cannot be established
    (building the client raises, or [is_connected()] raises or answers
    [False]), with no contract call issued, and 0 in every run that reaches
    the verdict, whatever the issues found. *)
Theorem exit_status_follows_connection (w : World) :
  (connection_established w = false ->
   exit_status (run w) = 1 /\ contract_calls (trace (run w)) = []) /\
  (past_connection w = true -> exit_status (run w) = 0) /\
  (forall l, final (run w) = Some l -> exit_status (run w) = 0).
Proof.
  rewrite run_exit_status, run_calls, main_calls, run_final.
  unfold past_connection.
  destruct (connection_established w), (block_number_read w); cbn [andb];
    repeat split; congruence.
Qed.

Lemma exit_status_follows_connection_witness :
  connection_established unreachable = false /\
  exit_status (run unreachable) = 1 /\
  contract_calls (trace (run unreachable)) = [] /\
  past_connection individual_paused_no_aggregator = true /\
  exit_status (run individual_paused_no_aggregator) = 0.
Proof.
  destruct (exit_status_follows_connection unreachable) as (H1 & _).
  destruct (exit_status_follows_connection individual_paused_no_aggregator)
    as (_ & H2 & _).
  destruct (H1 eq_refl) as [Hs Hc].
  split; [reflexivity | split; [exact Hs | split; [exact Hc |]]].
  split; [reflexivity | exact (H2 eq_refl)].
Defined.

(** C4.  The code breaks the claim in the run [block_read_fails]: the
    client is built and [is_connected()] answers [True], so the initial
    connection is established; the read of [w3.eth.block_number] at line
    103, the one read of the endpoint outside a [try], raises; nobody
    catches the exception, the interpreter prints a traceback and the
    process ends with status 1, where the claim has status 0.  No contract
    call was issued and the summary is never reached. *)
Lemma exit_status_1_with_connection_established :
  web3_new block_read_fails = None /\
  is_connected block_read_fails = inr true /\
  block_number block_read_fails = inl "timeout" /\
  connection_established block_read_fails = true /\
  exit_status (run block_read_fails) = 1 /\
  requests (trace (run block_read_fails)) = [IsConnected; BlockNumber] /\
  contract_calls (trace (run block_read_fails)) = [] /\
  In (Traceback "timeout") (trace (run block_read_fails)) /\
  final (run block_read_fails) = None /\
  ~ (exit_status (run block_read_fails) = 1 <->
     connection_established block_read_fails = false).
Proof.
  repeat (split; [reflexivity |]).
  split; [vm_compute; tauto |].
  split; [reflexivity |].
  intros [H _]. specialize (H eq_refl). discriminate H.
Qed.

(** Every run in which the connection is established and the block number
    read raises ends like that one: status 1, no contract call. *)
Lemma block_number_failure_is_uncaught (w : World) (e : string) :
  connection_established w = true ->
  block_number w = inl e ->
  exit_status (run w) = 1 /\
  contract_calls (trace (run w)) = [] /\
  final (run w) = None.
Proof.
  intros Hc Hb.
  rewrite run_exit_status, run_calls, main_calls, run_final.
  unfold past_connection, block_number_read. rewrite Hc, Hb.
  repeat split.
Qed.

(** C5, as amended.  The script prints nothing to standard error.  When a
    pause check or the aggregator inspection fails in a run past the
    connection, the line with the contract's name and the error message is
    printed to standard output, like the rest of the report. *)
Theorem errors_are_printed_to_stdout (w : World) :
  output Stderr (trace (run w)) = [] /\
  (past_connection w = true ->
   (forall e, call_paused w INDIVIDUAL_POOL = inl e ->
      In ("❌ Error checking IndividualPool: " ++ e)%string
         (output Stdout (trace (run w)))) /\
   (forall e, call_paused w COOPERATIVE_POOL = inl e ->
      In ("❌ Error checking CooperativePool: " ++ e)%string
         (output Stdout (trace (run w)))) /\
   (forall e, agg_error w = Some e ->
      In ("❌ Error checking YieldAggregator: " ++ e)%string
         (output Stdout (trace (run w))))).
Proof.
  split; [apply run_stderr |].
  intros Hp. repeat split; intros e He; apply In_output, In_run.
  - now apply main_prints_individual_error.
  - now apply main_prints_cooperative_error.
  - now apply main_prints_aggregator_error.
Qed.

Lemma errors_are_printed_to_stdout_witness :
  past_connection individual_fails = true /\
  call_paused individual_fails INDIVIDUAL_POOL = inl "boom" /\
  In "❌ Error checking IndividualPool: boom"
     (output Stdout (trace (run individual_fails))).
Proof.
  destruct (errors_are_printed_to_stdout individual_fails) as [_ H].
  destruct (H eq_refl) as (Hi & _).
  split; [reflexivity | split; [reflexivity |]].
  exact (Hi "boom" eq_refl).
Defined.

(** C5 as stated fails: the pause check of IndividualPool fails, and its
    error line is on standard output; nothing is written to standard
    error. *)
Lemma error_line_not_on_stderr :
  call_paused individual_fails INDIVIDUAL_POOL = inl "boom" /\
  In "❌ Error checking IndividualPool: boom"
     (output Stdout (trace (run individual_fails))) /\
  ~ In "❌ Error checking IndividualPool: boom"
       (output Stderr (trace (run individual_fails))) /\
  existsb on_stderr (trace (run individual_fails)) = false.
Proof.
  split; [reflexivity |].
  split; [vm_compute; tauto |].
  split; [vm_compute; tauto | reflexivity].
Qed.

(** C6, as amended.  When IndividualPool's pause status is true, canDeposit
    is false and the issues list starts with the one string
    "❌ IndividualPool is paused", which occurs nowhere else in it; with the
    aggregator unavailable the issues list is that string alone. *)
Theorem individual_paused_blocks_deposits (agg : option AggState) :
  ISSUE_INDIVIDUAL = "❌ IndividualPool is paused" /\
  fst (readiness (Some true) agg) = false /\
  (exists rest,
     snd (readiness (Some true) agg) = ISSUE_INDIVIDUAL :: rest /\
     ~ In ISSUE_INDIVIDUAL rest) /\
  readiness (Some true) None = (false, [ISSUE_INDIVIDUAL]).
Proof.
  split; [reflexivity |].
  unfold readiness, block_if, block.
  destruct agg as [[[|] [|] n vs] |];
    cbn [truthy paused deposits_paused num_vaults]; try destruct (n =? 0);
    cbn [fst snd app];
    (split; [reflexivity | split; [| reflexivity]]);
    eexists; (split; [reflexivity |]); cbn [In]; intuition discriminate.
Qed.

(** C6 as stated fails: the issue appended carries the marker of the source,
    so the list is not ["IndividualPool is paused"]. *)
Lemma individual_issue_has_marker :
  readiness (Some true) None = (false, ["❌ IndividualPool is paused"]) /\
  snd (readiness (Some true) None) <> ["IndividualPool is paused"] /\
  ~ In "IndividualPool is paused" (snd (readiness (Some true) None)).
Proof.
  split; [reflexivity |].
  split; [discriminate |].
  cbn. intros [H | []]. discriminate H.
Qed.

(** C7. In a run past the connection step, whatever the two [paused()] calls
    on the pools do: a failing one makes its check return [None]; both pool
    checks and the whole aggregator inspection are issued, in order; the
    summary is printed and [main] returns, with status 0. *)
Theorem pool_failures_are_isolated (w : World) :
  past_connection w = true ->
  (forall a name e,
     call_paused w a = inl e ->
     snd (check_contract_paused w a name) = inr None) /\
  contract_calls (trace (run w)) =
    [(INDIVIDUAL_POOL, "paused"); (COOPERATIVE_POOL, "paused")] ++
    contract_calls (fst (check_yield_aggregator_state w)) /\
  (exists l,
     final (run w) = Some l /\
     ind_paused l = pool_result w INDIVIDUAL_POOL /\
     coop_paused l = pool_result w COOPERATIVE_POOL /\
     snd (check_yield_aggregator_state w) = inr (agg_state l)) /\
  In "Summary:" (output Stdout (trace (run w))) /\
  exit_status (run w) = 0.
Proof.
  intros Hp. split; [| split; [| split; [| split]]].
  - intros a name e He. rewrite check_contract_paused_value.
    unfold pool_result. now rewrite He.
  - now rewrite run_calls, main_calls, Hp,
      check_yield_aggregator_state_calls.
  - rewrite run_final, Hp. eexists. split; [reflexivity |].
    cbn [ind_paused coop_paused agg_state].
    now rewrite check_yield_aggregator_state_value.
  - now apply In_output, In_run, main_prints_summary.
  - now rewrite run_exit_status, Hp.
Qed.

Lemma pool_failures_are_isolated_witness :
  past_connection individual_fails = true /\
  call_paused individual_fails INDIVIDUAL_POOL = inl "boom" /\
  contract_calls (trace (run individual_fails)) =
    [(INDIVIDUAL_POOL, "paused"); (COOPERATIVE_POOL, "paused");
     (YIELD_AGGREGATOR, "paused"); (YIELD_AGGREGATOR, "depositsPaused");
     (YIELD_AGGREGATOR, "activeVaultsList")] /\
  exit_status (run individual_fails) = 0.
Proof.
  destruct (pool_failures_are_isolated individual_fails eq_refl)
    as (_ & Hc & _ & _ & Hs).
  split; [reflexivity | split; [reflexivity | split; [exact Hc | exact Hs]]].
Defined.

(** C8. No run issues a contract call against the MezoIntegration address:
    every contract call of a run goes to one of the three other declared
    addresses. *)
Theorem mezo_integration_never_called (w : World) :
  Forall (fun c => fst c <> MEZO_INTEGRATION /\
                   In (fst c) [INDIVIDUAL_POOL; COOPERATIVE_POOL;
                               YIELD_AGGREGATOR])
         (contract_calls (trace (run w))).
Proof.
  apply Forall_forall. intros [a f] Hin. cbn [fst].
  assert (Ha : In a [INDIVIDUAL_POOL; COOPERATIVE_POOL; YIELD_AGGREGATOR]).
  { rewrite run_calls, main_calls in Hin.
    destruct (past_connection w); [| contradiction].
    destruct Hin as [[= <- _] | [[= <- _] | Hin]];
      [now left | now right; left | right; right; left].
    symmetry. now apply agg_calls_target with w f. }
  split; [| exact Ha].
  intros ->. now apply mezo_integration_not_queried.
Qed.

(** C9. An unknown IndividualPool status is evaluated exactly like "not
    paused": same verdict, no IndividualPool issue; and there is a run whose
    IndividualPool check failed that prints "All checks passed". *)
Theorem unknown_individual_status_counts_as_active (agg : option AggState) :
  readiness None agg = readiness (Some false) agg /\
  ~ In ISSUE_INDIVIDUAL (snd (readiness None agg)) /\
  pool_result individual_fails INDIVIDUAL_POOL = None /\
  option_map ind_paused (final (run individual_fails)) = Some None /\
  option_map can_deposit (final (run individual_fails)) = Some true /\
  option_map issues (final (run individual_fails)) = Some [] /\
  str_contains "All checks passed"
    "✅ All checks passed - Deposits should work!" = true /\
  In "✅ All checks passed - Deposits should work!"
     (output Stdout (trace (run individual_fails))).
Proof.
  split; [reflexivity |].
  split.
  - unfold readiness, block_if, block.
    destruct agg as [[[|] [|] n vs] |];
      cbn [truthy paused deposits_paused num_vaults];
      try destruct (n =? 0); cbn [fst snd app In]; intuition discriminate.
  - repeat (split; [reflexivity |]). vm_compute. tauto.
Qed.

(** C10. At the end of the evaluation canDeposit is true if and only if the
    issues list is empty; each blocking statement both clears canDeposit and
    leaves the list non-empty. *)
Theorem can_deposit_iff_no_issues (ip : option bool) (agg : option AggState) :
  (fst (readiness ip agg) = true <-> snd (readiness ip agg) = []) /\
  (forall issue v, fst (block issue v) = false /\ snd (block issue v) <> []).
Proof.
  split.
  - unfold readiness, block_if, block.
    destruct ip as [[|] |], agg as [[[|] [|] n vs] |];
      cbn [truthy paused deposits_paused num_vaults];
      try destruct (n =? 0); cbn [fst snd app];
      split; (reflexivity || discriminate).
  - intros issue [c l]. unfold block. cbn [fst snd]. split; [reflexivity |].
    now destruct l.
Qed.


(** * Further properties of the script *)

(** ** The aggregator inspection *)

(** X1. The inspection returns a state exactly when all three calls
    succeed, and then the state holds the three answers, with [num_vaults]
    the length of the list of vaults. *)
Theorem aggregator_state_iff_all_calls_succeed (w : World) (st : AggState) :
  snd (check_yield_aggregator_state w) = inr (Some st) <->
  call_paused w YIELD_AGGREGATOR = inr (paused st) /\
  call_depositsPaused w YIELD_AGGREGATOR = inr (deposits_paused st) /\
  call_activeVaultsList w YIELD_AGGREGATOR = inr (vaults st) /\
  num_vaults st = len (vaults st).
Proof.
  rewrite check_yield_aggregator_state_value. unfold agg_result.
  destruct st as [p d n vs]. cbn [paused deposits_paused vaults num_vaults].
  destruct (call_paused w YIELD_AGGREGATOR) as [e | p'];
    [split; [discriminate | now intros [H _]] |].
  destruct (call_depositsPaused w YIELD_AGGREGATOR) as [e | d'];
    [split; [discriminate | now intros (_ & H & _)] |].
  destruct (call_activeVaultsList w YIELD_AGGREGATOR) as [e | vs'];
    [split; [discriminate | now intros (_ & _ & H & _)] |].
  split.
  - intros [= -> -> <- ->]. auto.
  - intros ([= ->] & [= ->] & [= ->] & ->). reflexivity.
Qed.

(** X2. In any run that returns, the aggregator state, when there is one,
    has a vault count that is the length of its list of vaults: it is never
    negative, and it is zero exactly when the list is empty. *)
Theorem vault_count_is_length (w : World) (l : Locals) (st : AggState) :
  final (run w) = Some l ->
  agg_state l = Some st ->
  num_vaults st = len (vaults st) /\
  0 <= num_vaults st /\
  (num_vaults st = 0 <-> vaults st = []).
Proof.
  rewrite run_final. destruct (past_connection w); [| discriminate].
  intros [= <-]. cbn [agg_state]. unfold agg_result.
  destruct (call_paused w YIELD_AGGREGATOR); [discriminate |].
  destruct (call_depositsPaused w YIELD_AGGREGATOR); [discriminate |].
  destruct (call_activeVaultsList w YIELD_AGGREGATOR) as [e | vs];
    [discriminate |].
  intros [= <-]. cbn [num_vaults vaults]. unfold len.
  split; [reflexivity | split; [lia |]].
  destruct vs; cbn [List.length]; split; try reflexivity; discriminate.
Qed.

Lemma vault_count_is_length_witness :
  final (run healthy) = Some healthy_locals /\
  agg_state healthy_locals = Some healthy_state /\
  num_vaults healthy_state = len (vaults healthy_state) /\
  0 <= num_vaults healthy_state.
Proof.
  assert (Hf : final (run healthy) = Some healthy_locals) by reflexivity.
  assert (Ha : agg_state healthy_locals = Some healthy_state) by reflexivity.
  destruct (vault_count_is_length healthy _ _ Hf Ha) as (Hn & Hp & _).
  split; [exact Hf | split; [exact Ha | split; [exact Hn | exact Hp]]].
Defined.

(** X3. The inspection stops at the first call that fails: the calls after
    it are not sent, and one error line with that call's message is
    printed.  When all three succeed nothing is printed. *)
Theorem inspection_stops_at_first_failure (w : World) :
  (forall e,
     call_paused w YIELD_AGGREGATOR = inl e ->
     fst (check_yield_aggregator_state w) =
       [Rpc (ContractCall YIELD_AGGREGATOR "paused");
        Print Stdout ("❌ Error checking YieldAggregator: " ++ e)]) /\
  (forall p e,
     call_paused w YIELD_AGGREGATOR = inr p ->
     call_depositsPaused w YIELD_AGGREGATOR = inl e ->
     fst (check_yield_aggregator_state w) =
       [Rpc (ContractCall YIELD_AGGREGATOR "paused");
        Rpc (ContractCall YIELD_AGGREGATOR "depositsPaused");
        Print Stdout ("❌ Error checking YieldAggregator: " ++ e)]) /\
  (forall p d e,
     call_paused w YIELD_AGGREGATOR = inr p ->
     call_depositsPaused w YIELD_AGGREGATOR = inr d ->
     call_activeVaultsList w YIELD_AGGREGATOR = inl e ->
     fst (check_yield_aggregator_state w) =
       [Rpc (ContractCall YIELD_AGGREGATOR "paused");
        Rpc (ContractCall YIELD_AGGREGATOR "depositsPaused");
        Rpc (ContractCall YIELD_AGGREGATOR "activeVaultsList");
        Print Stdout ("❌ Error checking YieldAggregator: " ++ e)]) /\
  (forall p d vs,
     call_paused w YIELD_AGGREGATOR = inr p ->
     call_depositsPaused w YIELD_AGGREGATOR = inr d ->
     call_activeVaultsList w YIELD_AGGREGATOR = inr vs ->
     fst (check_yield_aggregator_state w) =
       [Rpc (ContractCall YIELD_AGGREGATOR "paused");
        Rpc (ContractCall YIELD_AGGREGATOR "depositsPaused");
        Rpc (ContractCall YIELD_AGGREGATOR "activeVaultsList")]).
Proof.
  unfold check_yield_aggregator_state.
  repeat split; intros;
    repeat match goal with H : _ = _ |- _ => rewrite H; clear H end;
    reflexivity.
Qed.

Lemma inspection_stops_at_first_failure_witness :
  call_paused individual_paused_no_aggregator YIELD_AGGREGATOR = inr false /\
  call_depositsPaused individual_paused_no_aggregator YIELD_AGGREGATOR
    = inl "execution reverted" /\
  fst (check_yield_aggregator_state individual_paused_no_aggregator) =
    [Rpc (ContractCall YIELD_AGGREGATOR "paused");
     Rpc (ContractCall YIELD_AGGREGATOR "depositsPaused");
     Print Stdout "❌ Error checking YieldAggregator: execution reverted"].
Proof.
  destruct (inspection_stops_at_first_failure individual_paused_no_aggregator)
    as (_ & H & _).
  split; [reflexivity | split; [reflexivity |]].
  exact (H false "execution reverted" eq_refl eq_refl).
Defined.

(** ** The traffic with the endpoint *)

Lemma requests_app (t u : list event) :
  requests (t ++ u) = requests t ++ requests u.
Proof.
  induction t as [| [s l | r | msg] t IH]; simpl; congruence.
Qed.

Lemma run_requests (w : World) :
  requests (trace (run w)) = requests (fst (main w)).
Proof.
  unfold run. destruct (main w) as [t [[msg | code] | l]]; cbn [trace fst];
    try reflexivity.
  rewrite requests_app. apply app_nil_r.
Qed.

Lemma main_requests (w : World) :
  requests (fst (main w)) =
  match web3_new w with
  | Some _ => []
  | None =>
      IsConnected ::
      if connection_established w then
        BlockNumber ::
        if block_number_read w then
          ContractCall INDIVIDUAL_POOL "paused" ::
          ContractCall COOPERATIVE_POOL "paused" ::
          map (fun c => ContractCall (fst c) (snd c)) (agg_calls w)
        else []
      else []
  end.
Proof.
  rewrite (obs_main requests eq_refl requests_app (fun _ => eq_refl)).
  assert (Hc : requests (fst (connect w)) =
               match web3_new w with Some _ => [] | None => [IsConnected] end).
  { unfold connect. destruct (web3_new w); [reflexivity |].
    now destruct (is_connected w) as [e | [|]]. }
  assert (Hp : forall a n, requests (fst (check_contract_paused w a n)) =
                           [ContractCall a "paused"]).
  { intros a n. unfold check_contract_paused.
    now destruct (call_paused w a). }
  assert (Ha : requests (fst (check_yield_aggregator_state w)) =
               map (fun c => ContractCall (fst c) (snd c)) (agg_calls w)).
  { unfold check_yield_aggregator_state, agg_calls.
    destruct (call_paused w YIELD_AGGREGATOR); [reflexivity |].
    destruct (call_depositsPaused w YIELD_AGGREGATOR); [reflexivity |].
    now destruct (call_activeVaultsList w YIELD_AGGREGATOR). }
  rewrite Hc, !Hp, Ha. unfold connection_established.
  destruct (web3_new w); [reflexivity |].
  now destruct (is_connected w) as [e | [|]].
Qed.

(** Two requests of [ALL_REQUESTS] differ by constructor, by address or by
    function name. *)
Ltac differ H :=
  first [ discriminate H
        | injection H as H _; revert H; apply String.eqb_neq; reflexivity
        | injection H as _ H; revert H; apply String.eqb_neq; reflexivity ].

Lemma all_requests_distinct : NoDup ALL_REQUESTS.
Proof.
  unfold ALL_REQUESTS.
  repeat (constructor;
          [ cbn [In]; intros H;
            repeat (destruct H as [H | H]; [differ H |]); exact H |]).
  constructor.
Qed.

(** X4. The calls a run makes on the web3 client are a beginning of one
    fixed sequence: [is_connected()], the block number, [paused()] on
    IndividualPool, on CooperativePool and on YieldAggregator, then
    [depositsPaused()] and [activeVaultsList()].  So the script makes at
    most seven such calls in a run, at most five of them calls of a contract
    function, none of them twice, always in this order.  (How many HTTP
    requests the library sends for each call is not the script's doing.) *)
Theorem requests_follow_fixed_order (w : World) :
  starts_with (requests (trace (run w))) ALL_REQUESTS /\
  (List.length (requests (trace (run w))) <= 7)%nat /\
  (List.length (contract_calls (trace (run w))) <= 5)%nat /\
  NoDup (requests (trace (run w))).
Proof.
  pose proof all_requests_distinct as Hd.
  assert (Hs : starts_with (requests (trace (run w))) ALL_REQUESTS).
  { rewrite run_requests, main_requests. unfold starts_with, ALL_REQUESTS.
    destruct (web3_new w); [eexists; reflexivity |].
    destruct (connection_established w); [| eexists; reflexivity].
    destruct (block_number_read w); [| eexists; reflexivity].
    unfold agg_calls.
    destruct (call_paused w YIELD_AGGREGATOR); [eexists; reflexivity |].
    destruct (call_depositsPaused w YIELD_AGGREGATOR); eexists; reflexivity. }
  split; [exact Hs |].
  destruct Hs as [rest Hr].
  split; [| split].
  - apply (f_equal (@List.length _)) in Hr. rewrite List.length_app in Hr.
    cbn [ALL_REQUESTS List.length] in Hr. lia.
  - rewrite run_calls, main_calls.
    destruct (past_connection w); [| cbn; lia].
    unfold agg_calls.
    destruct (call_paused w YIELD_AGGREGATOR); [cbn; lia |].
    destruct (call_depositsPaused w YIELD_AGGREGATOR); cbn; lia.
  - rewrite Hr in Hd. now apply NoDup_app_remove_r in Hd.
Qed.

(** ** How a run that cannot connect ends *)

(** X6. Every run starts with the six lines of the banner, before anything
    is sent to the endpoint.  When the connection fails the run ends right
    there, with status 1: if the client cannot be built, with the line
    "Connection error" and no request at all; if [is_connected()] raises,
    with the same line after that one request; if it answers [False], with
    the line "Failed to connect" and no "Connection error" line, since
    [except Exception] does not catch the [SystemExit] of [sys.exit]. *)
Theorem connection_failures (w : World) :
  starts_with (map (Print Stdout) BANNER) (trace (run w)) /\
  (forall e,
     web3_new w = Some e ->
     trace (run w) =
       map (Print Stdout) BANNER ++
       [Print Stdout ("❌ Connection error: " ++ e)] /\
     exit_status (run w) = 1) /\
  (forall e,
     web3_new w = None -> is_connected w = inl e ->
     trace (run w) =
       map (Print Stdout) BANNER ++
       [Rpc IsConnected; Print Stdout ("❌ Connection error: " ++ e)] /\
     exit_status (run w) = 1) /\
  (web3_new w = None -> is_connected w = inr false ->
   trace (run w) =
     map (Print Stdout) BANNER ++
     [Rpc IsConnected; Print Stdout "❌ Failed to connect to Mezo Testnet RPC"]
   /\ exit_status (run w) = 1).
Proof.
  split; [| destruct w as [wn ic bn cp cdp cav]; cbn [web3_new is_connected];
            repeat split; intros; subst; reflexivity].
  assert (H : starts_with (map (Print Stdout) BANNER) (fst (main w))).
  { unfold main. do 6 (rewrite fst_bind; cbn [print fst snd app]).
    eexists. reflexivity. }
  destruct H as [rest Hr]. unfold run.
  destruct (main w) as [t [[msg | code] | l]]; cbn [trace fst] in *;
    subst t; eexists; reflexivity.
Qed.

Lemma connection_failures_witness :
  web3_new unreachable = None /\ is_connected unreachable = inr false /\
  trace (run unreachable) =
    map (Print Stdout) BANNER ++
    [Rpc IsConnected; Print Stdout "❌ Failed to connect to Mezo Testnet RPC"]
  /\ exit_status (run unreachable) = 1 /\
  web3_new client_fails = Some "invalid URL" /\
  requests (trace (run client_fails)) = [].
Proof.
  destruct (connection_failures unreachable) as (_ & _ & _ & H).
  destruct (H eq_refl eq_refl) as [Ht Hs].
  destruct (connection_failures client_fails) as (_ & H' & _).
  destruct (H' _ eq_refl) as [Ht' _].
  split; [reflexivity | split; [reflexivity | split; [exact Ht |]]].
  split; [exact Hs | split; [reflexivity |]].
  rewrite Ht'. reflexivity.
Defined.

(** ** The issues list *)

Ltac issue_cases :=
  match goal with
  | |- NoDup _ => repeat constructor; cbn [In]; intuition discriminate
  | |- _ <-> _ =>
      split; cbn [In];
      [ intros H; repeat (destruct H as [H | H]; try discriminate H);
        try contradiction; try reflexivity;
        try (eexists; split; [reflexivity | cbn; assumption || reflexivity])
      | intros H; try discriminate H;
        try (match type of H with
             | ex _ => destruct H as [st [[= <-] H]]
             end;
             cbn [paused deposits_paused num_vaults] in H;
             try discriminate H; try contradiction);
        tauto ]
  | |- (_ <= _)%nat => cbn; lia
  | |- _ = _ => reflexivity
  end.

(** X7. The issues list holds each of the four issues exactly when its
    condition holds, at most once, and always in the same order:
    IndividualPool paused, aggregator paused, aggregator deposits paused,
    no vaults. *)
Theorem issues_characterised (ip : option bool) (agg : option AggState) :
  snd (readiness ip agg) =
    (if truthy ip then [ISSUE_INDIVIDUAL] else []) ++
    match agg with
    | Some st =>
        (if paused st then [ISSUE_AGG_PAUSED] else []) ++
        (if deposits_paused st then [ISSUE_AGG_DEPOSITS] else []) ++
        (if num_vaults st =? 0 then [ISSUE_NO_VAULTS] else [])
    | None => []
    end /\
  NoDup (snd (readiness ip agg)) /\
  (List.length (snd (readiness ip agg)) <= 4)%nat /\
  (In ISSUE_INDIVIDUAL (snd (readiness ip agg)) <-> ip = Some true) /\
  (In ISSUE_AGG_PAUSED (snd (readiness ip agg)) <->
   exists st, agg = Some st /\ paused st = true) /\
  (In ISSUE_AGG_DEPOSITS (snd (readiness ip agg)) <->
   exists st, agg = Some st /\ deposits_paused st = true) /\
  (In ISSUE_NO_VAULTS (snd (readiness ip agg)) <->
   exists st, agg = Some st /\ num_vaults st = 0).
Proof.
  unfold readiness, block_if, block.
  destruct ip as [[|] |], agg as [[[|] [|] n vs] |];
    cbn [truthy paused deposits_paused num_vaults];
    try destruct (Z.eqb_spec n 0) as [Hn | Hn];
    cbn [fst snd app];
    repeat match goal with |- _ /\ _ => split end;
    issue_cases.
Qed.

(** ** What the report shows *)

Lemma for_each_print {A} (xs : list A) (f : A -> string) :
  for_each xs (fun x => print (f x)) =
  (map (Print Stdout) (map f xs), inr tt).
Proof.
  induction xs as [| x xs IH]; cbn [for_each map]; [reflexivity |].
  rewrite IH. reflexivity.
Qed.

Lemma occurs_in_here {A} (t post : list A) : occurs_in t (t ++ post).
Proof. now exists [], post. Qed.

Lemma occurs_in_later {A} (t pre u : list A) :
  occurs_in t u -> occurs_in t (pre ++ u).
Proof.
  intros (p & q & ->). exists (pre ++ p), q. now rewrite app_assoc.
Qed.

Lemma occurs_in_earlier {A} (t u post : list A) :
  occurs_in t u -> occurs_in t (u ++ post).
Proof.
  intros (p & q & ->). exists p, (q ++ post). now rewrite <- !app_assoc.
Qed.

Lemma occurs_bind_l {A B} (t : list event) (m : M A) (k : A -> M B) :
  occurs_in t (fst m) -> occurs_in t (fst (bind m k)).
Proof. intros H. rewrite fst_bind. now apply occurs_in_earlier. Qed.

Lemma occurs_bind_r {A B} (t : list event) (m : M A) (k : A -> M B) (a : A) :
  snd m = inr a -> occurs_in t (fst (k a)) -> occurs_in t (fst (bind m k)).
Proof. intros Hm H. rewrite fst_bind, Hm. now apply occurs_in_later. Qed.

Lemma occurs_run (t : list event) (w : World) :
  occurs_in t (fst (main w)) -> occurs_in t (trace (run w)).
Proof.
  unfold run. destruct (main w) as [u [[msg | code] | l]]; cbn [trace fst];
    auto.
  apply occurs_in_earlier.
Qed.

Lemma output_prints (ls : list string) :
  output Stdout (map (Print Stdout) ls) = ls.
Proof. induction ls; simpl; congruence. Qed.

Lemma occurs_output (s : stream) (t u : list event) :
  occurs_in t u -> occurs_in (output s t) (output s u).
Proof.
  intros (p & q & ->). exists (output s p), (output s q).
  now rewrite !output_app.
Qed.

(** The lines [ls] are printed one after the other in the run of [w]. *)
Lemma printed_block (ls : list string) (w : World) :
  occurs_in (map (Print Stdout) ls) (fst (main w)) ->
  occurs_in ls (output Stdout (trace (run w))).
Proof.
  intros H. apply occurs_run, (occurs_output Stdout) in H.
  now rewrite output_prints in H.
Qed.

Lemma check_contract_paused_trace (w : World) (a name : string) :
  fst (check_contract_paused w a name) =
  Rpc (ContractCall a "paused") ::
  match call_paused w a with
  | inl e => [Print Stdout ("❌ Error checking " ++ name ++ ": " ++ e)]
  | inr _ => []
  end.
Proof.
  unfold check_contract_paused. now destruct (call_paused w a).
Qed.

(** Step over a statement of [main] that returns, looking for a block. *)
Ltac pass :=
  eapply occurs_bind_r;
  [ first [ apply snd_prints_only; solve [auto with py]
          | apply check_contract_paused_value
          | apply check_yield_aggregator_state_value
          | eassumption ]
  | ].

(** X8. In a run past the connection step, each pool's status is shown:
    "PAUSED" or "ACTIVE" after the pool's name when [paused()] answers, and
    when it fails the error line followed by "Status unknown".  This holds
    for CooperativePool as for IndividualPool. *)
Theorem pool_status_is_displayed (w : World) :
  past_connection w = true ->
  match call_paused w INDIVIDUAL_POOL with
  | inr b =>
      occurs_in ["IndividualPool: " ++ pool_status b]%string
        (output Stdout (trace (run w)))
  | inl e =>
      occurs_in ["❌ Error checking IndividualPool: " ++ e;
                 "❓ IndividualPool: Status unknown"]%string
        (output Stdout (trace (run w)))
  end /\
  match call_paused w COOPERATIVE_POOL with
  | inr b =>
      occurs_in ["CooperativePool: " ++ pool_status b]%string
        (output Stdout (trace (run w)))
  | inl e =>
      occurs_in ["❌ Error checking CooperativePool: " ++ e;
                 "❓ CooperativePool: Status unknown"]%string
        (output Stdout (trace (run w)))
  end.
Proof.
  intros Hp. apply past_connection_inv in Hp as [Hc [b Hb]].
  split.
  - destruct (call_paused w INDIVIDUAL_POOL) as [e | p] eqn:He;
      apply printed_block; unfold main; do 12 pass;
      rewrite fst_bind, check_contract_paused_value,
        check_contract_paused_trace, fst_bind;
      unfold pool_result; rewrite He; cbn [report_pool print fst app];
      eexists [_], _; reflexivity.
  - destruct (call_paused w COOPERATIVE_POOL) as [e | p] eqn:He;
      apply printed_block; unfold main; do 14 pass;
      rewrite fst_bind, check_contract_paused_value,
        check_contract_paused_trace, fst_bind;
      unfold pool_result; rewrite He; cbn [report_pool print fst app];
      eexists [_], _; reflexivity.
Qed.

Lemma pool_status_is_displayed_witness :
  past_connection cooperative_fails = true /\
  occurs_in ["IndividualPool: 🟢 ACTIVE"]
    (output Stdout (trace (run cooperative_fails))) /\
  occurs_in ["❌ Error checking CooperativePool: boom";
             "❓ CooperativePool: Status unknown"]
    (output Stdout (trace (run cooperative_fails))).
Proof.
  split; [reflexivity |].
  exact (pool_status_is_displayed cooperative_fails eq_refl).
Defined.

Lemma out_bind {A B} (m : M A) (k : A -> M B) :
  output Stdout (fst (bind m k)) =
  output Stdout (fst m) ++
  match snd m with inr a => output Stdout (fst (k a)) | inl _ => [] end.
Proof. apply (obs_bind (output Stdout) eq_refl (output_app Stdout)). Qed.

Lemma occurs_out_r {A B} (ls : list string) (m : M A) (k : A -> M B) (a : A) :
  snd m = inr a ->
  occurs_in ls (output Stdout (fst (k a))) ->
  occurs_in ls (output Stdout (fst (bind m k))).
Proof. intros Hm H. rewrite out_bind, Hm. now apply occurs_in_later. Qed.

Lemma ends_out_r {A B} (ls : list string) (m : M A) (k : A -> M B) (a : A) :
  snd m = inr a ->
  ends_with ls (output Stdout (fst (k a))) ->
  ends_with ls (output Stdout (fst (bind m k))).
Proof.
  intros Hm [pre H]. rewrite out_bind, Hm, H.
  exists (output Stdout (fst m) ++ pre). now rewrite app_assoc.
Qed.

Lemma run_output_returns (w : World) :
  past_connection w = true ->
  output Stdout (trace (run w)) = output Stdout (fst (main w)).
Proof.
  intros Hp. generalize (main_value w). unfold run, main_result.
  unfold past_connection, block_number_read in Hp.
  destruct (connection_established w); [| discriminate].
  destruct (block_number w); [discriminate |].
  now destruct (main w) as [t [[msg | code] | l]].
Qed.

Lemma report_aggregator_output (st : AggState) :
  output Stdout (fst (report_aggregator (Some st))) =
  ["  Status: " ++ pool_status (paused st);
   "  Deposits: " ++ deposits_status (deposits_paused st);
   "  Configured Vaults: " ++ str_int (num_vaults st)]%string ++
  (if num_vaults st =? 0 then ["  ⚠️  WARNING: No vaults configured!"]
   else "  Vaults:" :: map (fun v => "    - " ++ v)%string (vaults st)).
Proof.
  unfold report_aggregator. do 3 (rewrite out_bind; cbn [print fst snd]).
  cbn [output stream_eqb app]. do 3 f_equal.
  destruct (num_vaults st =? 0); [reflexivity |].
  rewrite out_bind, for_each_print. cbn [print fst snd output stream_eqb app].
  now rewrite output_prints.
Qed.

Lemma report_verdict_output (v : verdict) :
  output Stdout (fst (report_verdict v)) =
  if fst v then ["✅ All checks passed - Deposits should work!"]
  else "⚠️  Issues found preventing deposits:" ::
       map (fun issue => "  " ++ issue)%string (snd v) ++ REMEDIATION.
Proof.
  unfold report_verdict. destruct (fst v); [reflexivity |].
  rewrite out_bind. cbn [print fst snd output stream_eqb app]. f_equal.
  rewrite out_bind, for_each_print. cbn [fst snd]. rewrite output_prints.
  reflexivity.
Qed.

Ltac pass_out :=
  eapply occurs_out_r;
  [ first [ apply snd_prints_only; solve [auto with py]
          | apply check_contract_paused_value
          | apply check_yield_aggregator_state_value
          | eassumption ]
  | ].

Ltac pass_end :=
  eapply ends_out_r;
  [ first [ apply snd_prints_only; solve [auto with py]
          | apply check_contract_paused_value
          | apply check_yield_aggregator_state_value
          | eassumption ]
  | ].

Lemma check_yield_aggregator_state_output (w : World) :
  output Stdout (fst (check_yield_aggregator_state w)) =
  match agg_error w with
  | Some e => ["❌ Error checking YieldAggregator: " ++ e]%string
  | None => []
  end.
Proof.
  unfold check_yield_aggregator_state, agg_error.
  destruct (call_paused w YIELD_AGGREGATOR); [reflexivity |].
  destruct (call_depositsPaused w YIELD_AGGREGATOR); [reflexivity |].
  now destruct (call_activeVaultsList w YIELD_AGGREGATOR).
Qed.

Ltac print_out := rewrite out_bind; cbn [print fst snd output stream_eqb].

(** X9. In a run past the connection step the section "YieldAggregator
    Details" holds, when the inspection succeeds, the two status lines, the
    number of vaults and then either the warning that there are none or one
    line per vault, in the order the contract returned them; when the
    inspection fails it holds the error line and nothing else. *)
Theorem aggregator_details_are_displayed (w : World) :
  past_connection w = true ->
  (forall p d vs,
     call_paused w YIELD_AGGREGATOR = inr p ->
     call_depositsPaused w YIELD_AGGREGATOR = inr d ->
     call_activeVaultsList w YIELD_AGGREGATOR = inr vs ->
     occurs_in
       (["YieldAggregator Details:"; LINE_DASH;
         "  Status: " ++ pool_status p;
         "  Deposits: " ++ deposits_status d;
         "  Configured Vaults: " ++ str_int (len vs)]%string ++
        match vs with
        | [] => ["  ⚠️  WARNING: No vaults configured!"]
        | _ :: _ => "  Vaults:" :: map (fun v => "    - " ++ v)%string vs
        end ++
        [""; LINE_EQ; "Summary:"])
       (output Stdout (trace (run w)))) /\
  (forall e,
     agg_error w = Some e ->
     occurs_in
       ["YieldAggregator Details:"; LINE_DASH;
        "❌ Error checking YieldAggregator: " ++ e;
        ""; LINE_EQ; "Summary:"]%string
       (output Stdout (trace (run w)))).
Proof.
  intros Hp. rewrite (run_output_returns w Hp).
  apply past_connection_inv in Hp as [Hc [b Hb]].
  split.
  - intros p d vs H1 H2 H3.
    assert (Ha : agg_result w =
                 Some {| paused := p; deposits_paused := d;
                         num_vaults := len vs; vaults := vs |}).
    { unfold agg_result. now rewrite H1, H2, H3. }
    assert (He : agg_error w = None).
    { unfold agg_error. now rewrite H1, H2, H3. }
    unfold main. do 17 pass_out. do 2 print_out.
    rewrite out_bind, check_yield_aggregator_state_value,
      check_yield_aggregator_state_output, He, Ha.
    rewrite out_bind, report_aggregator_output, snd_prints_only
      by auto with py.
    do 3 print_out.
    cbn [paused deposits_paused num_vaults vaults app].
    replace (len vs =? 0) with (match vs with [] => true | _ => false end)
      by (now destruct vs).
    eexists [], _. cbn [app]. do 5 f_equal.
    destruct vs; cbn [app]; [reflexivity |].
    rewrite <- app_assoc. reflexivity.
  - intros e He.
    assert (Ha : agg_result w = None).
    { revert He. unfold agg_result, agg_error.
      destruct (call_paused w YIELD_AGGREGATOR); [reflexivity |].
      destruct (call_depositsPaused w YIELD_AGGREGATOR); [reflexivity |].
      now destruct (call_activeVaultsList w YIELD_AGGREGATOR). }
    unfold main. do 17 pass_out. do 2 print_out.
    rewrite out_bind, check_yield_aggregator_state_value,
      check_yield_aggregator_state_output, He, Ha.
    rewrite out_bind. cbn [report_aggregator ret fst snd output].
    do 3 print_out.
    eexists [], _. reflexivity.
Qed.

Lemma aggregator_details_are_displayed_witness :
  past_connection healthy = true /\
  occurs_in
    ["YieldAggregator Details:"; LINE_DASH;
     "  Status: 🟢 ACTIVE"; "  Deposits: 🟢 ENABLED";
     "  Configured Vaults: 3"; "  Vaults:";
     ("    - " ++ VAULT_A)%string; ("    - " ++ VAULT_B)%string;
     ("    - " ++ VAULT_C)%string;
     ""; LINE_EQ; "Summary:"]
    (output Stdout (trace (run healthy))) /\
  agg_error individual_paused_no_aggregator = Some "execution reverted" /\
  occurs_in
    ["YieldAggregator Details:"; LINE_DASH;
     "❌ Error checking YieldAggregator: execution reverted";
     ""; LINE_EQ; "Summary:"]
    (output Stdout (trace (run individual_paused_no_aggregator))).
Proof.
  destruct (aggregator_details_are_displayed healthy eq_refl) as [H _].
  destruct (aggregator_details_are_displayed individual_paused_no_aggregator
              eq_refl) as [_ H'].
  split; [reflexivity | split; [| split; [reflexivity |]]].
  - exact (H false false [VAULT_A; VAULT_B; VAULT_C] eq_refl eq_refl eq_refl).
  - exact (H' "execution reverted" eq_refl).
Defined.

(** The end of the output of a run past the connection step. *)
Lemma summary_lines (w : World) :
  past_connection w = true ->
  exists pre,
    output Stdout (trace (run w)) =
    pre ++
    ["Summary:"; LINE_DASH] ++
    (let v := readiness (pool_result w INDIVIDUAL_POOL) (agg_result w) in
     if fst v then ["✅ All checks passed - Deposits should work!"]
     else "⚠️  Issues found preventing deposits:" ::
          map (fun issue => "  " ++ issue)%string (snd v) ++ REMEDIATION) ++
    [LINE_EQ].
Proof.
  intros Hp. rewrite (run_output_returns w Hp).
  apply past_connection_inv in Hp as [Hc [b Hb]].
  change (ends_with
            (["Summary:"; LINE_DASH] ++
             (let v := readiness (pool_result w INDIVIDUAL_POOL)
                         (agg_result w) in
              if fst v then ["✅ All checks passed - Deposits should work!"]
              else "⚠️  Issues found preventing deposits:" ::
                   map (fun issue => "  " ++ issue)%string (snd v) ++
                   REMEDIATION) ++
             [LINE_EQ])
            (output Stdout (fst (main w)))).
  unfold main. do 23 pass_end. do 2 print_out.
  rewrite out_bind, report_verdict_output, snd_prints_only by auto with py.
  print_out. cbn [ret fst output].
  exists []. reflexivity.
Qed.

(** X10. A run past the connection step ends its output with the summary:
    the heading, then the single success line when canDeposit is true, and
    otherwise the "Issues found" line, one line per issue in the order of
    the issues list, and the five lines of the remediation hint; a closing
    rule follows and nothing after it. *)
Theorem summary_ends_the_report (w : World) :
  past_connection w = true ->
  exists l,
    final (run w) = Some l /\
    ends_with
      (["Summary:"; LINE_DASH] ++
       (if can_deposit l then
          ["✅ All checks passed - Deposits should work!"]
        else
          "⚠️  Issues found preventing deposits:" ::
          map (fun issue => "  " ++ issue)%string (issues l) ++ REMEDIATION) ++
       [LINE_EQ])
      (output Stdout (trace (run w))).
Proof.
  intros Hp. destruct (summary_lines w Hp) as [pre Hs].
  rewrite run_final, Hp. eexists. split; [reflexivity |].
  cbn [can_deposit issues]. now exists pre.
Qed.

Lemma summary_ends_the_report_witness :
  past_connection everything_paused = true /\
  ends_with
    ["Summary:"; LINE_DASH;
     "⚠️  Issues found preventing deposits:";
     "  ❌ IndividualPool is paused";
     "  ❌ YieldAggregator is paused";
     "  ❌ YieldAggregator deposits are paused";
     "  ❌ No vaults configured in YieldAggregator";
     ""; "To fix:";
     "  1. Run: bash scripts/unpause-contracts.sh";
     "  2. Ensure DEPLOYER_PRIVATE_KEY environment variable is set";
     "  3. Ensure MEZO_TESTNET_RPC environment variable is set (optional)";
     LINE_EQ]
    (output Stdout (trace (run everything_paused))).
Proof.
  split; [reflexivity |].
  destruct (summary_ends_the_report everything_paused eq_refl)
    as (l & Hl & He).
  injection Hl as <-. exact He.
Defined.

(** ** What blocks deposits and what does not *)

(** X11. canDeposit is true exactly when IndividualPool is not known to be
    paused and the aggregator state, if there is one, is not paused, has
    deposits enabled and has a vault count other than zero.  An unknown
    IndividualPool status and a missing aggregator state block nothing. *)
Theorem can_deposit_closed_form (ip : option bool) (agg : option AggState) :
  fst (readiness ip agg) = true <->
  ip <> Some true /\
  forall st, agg = Some st ->
    paused st = false /\ deposits_paused st = false /\ num_vaults st <> 0.
Proof.
  unfold readiness, block_if, block.
  destruct ip as [[|] |], agg as [[[|] [|] n vs] |];
    cbn [truthy paused deposits_paused num_vaults];
    try destruct (Z.eqb_spec n 0) as [Hn | Hn];
    cbn [fst]; split;
    try discriminate;
    try (intros [H _]; congruence);
    try (intros [_ H]; destruct (H _ eq_refl) as (H1 & H2 & H3);
         cbn [paused deposits_paused num_vaults] in *; congruence);
    intros _; (split; [discriminate |]);
    intros st [= <-]; cbn [paused deposits_paused num_vaults]; auto;
    discriminate.
Qed.

(** X12. The checks fail open: in a run past the connection step where the
    call on IndividualPool fails and the aggregator inspection fails, the
    verdict has no issue, canDeposit is true, and the output ends with the
    line "All checks passed". *)
Theorem failed_checks_pass (w : World) (e : string) :
  past_connection w = true ->
  call_paused w INDIVIDUAL_POOL = inl e ->
  agg_call_fails w ->
  option_map can_deposit (final (run w)) = Some true /\
  option_map issues (final (run w)) = Some [] /\
  ends_with ["Summary:"; LINE_DASH;
             "✅ All checks passed - Deposits should work!"; LINE_EQ]
    (output Stdout (trace (run w))).
Proof.
  intros Hp Hi Hf.
  assert (Ha : agg_result w = None).
  { unfold agg_result.
    destruct Hf as [[x ->] | [[x ->] | [x ->]]]; [reflexivity | |].
    - now destruct (call_paused w YIELD_AGGREGATOR).
    - now destruct (call_paused w YIELD_AGGREGATOR),
        (call_depositsPaused w YIELD_AGGREGATOR). }
  assert (Hr : pool_result w INDIVIDUAL_POOL = None).
  { unfold pool_result. now rewrite Hi. }
  destruct (summary_lines w Hp) as [pre Hs].
  rewrite Hs, run_final, Hp, Ha, Hr.
  repeat split. now exists pre.
Qed.

Lemma failed_checks_pass_witness :
  past_connection all_calls_fail = true /\
  call_paused all_calls_fail INDIVIDUAL_POOL = inl "execution reverted" /\
  agg_call_fails all_calls_fail /\
  option_map can_deposit (final (run all_calls_fail)) = Some true /\
  option_map issues (final (run all_calls_fail)) = Some [].
Proof.
  assert (Hf : agg_call_fails all_calls_fail).
  { left. exists "execution reverted". reflexivity. }
  destruct (failed_checks_pass all_calls_fail _ eq_refl eq_refl Hf)
    as (Hc & Hi & _).
  split; [reflexivity | split; [reflexivity | split; [exact Hf |]]].
  split; [exact Hc | exact Hi].
Defined.
